(** * Optimizers of marian: a shallow embedding of [src/optimizers/optimizers.h]

    The header declares the optimizer base class [OptimizerBase] (learning
    rate, optional gradient clipper, the clip-then-update entry point, the
    training-observer notifications and the positional hyper-parameter
    parser) and its three subclasses [Sgd], [Adagrad] and [Adam].

    The numeric kernels ([updateImpl], [resetStats]) and the distributed
    persistence ([load], [save]) of the subclasses are only declared in the
    header; their bodies live in [optimizers.cpp].  Those are modelled from
    the natural-language specification and marked as such.

    Numbers.  The C++ code computes on [float].  None of the data-moving
    operations (clipping order, notifications, parameter parsing, gather and
    scatter) depends on how floats compute, so the embedding is generic in a
    scalar type [F] with the operations the update rules use.  It has two
    instances: IEEE 754 binary32, the arithmetic of the code, and the real
    numbers, the exact arithmetic in which the update rules are usually
    read.  Where the two disagree the property is stated for each. *)

From Stdlib Require Import Reals Lra ZArith NArith.
From Stdlib Require Floats.SpecFloat.
From stdpp Require Import base option list strings gmap.

(** ** Scalars *)

(** The operations on [float] that the update rules use.  [fdec m k] is
    the decimal literal [m / 10^k] (for instance [0.9f] is [fdec 9 1]). *)
Class Scalar (F : Type) := {
  fzero : F;
  fone : F;
  fadd : F → F → F;
  fsub : F → F → F;
  fmul : F → F → F;
  fdiv : F → F → F;
  fsqrt : F → F;
  fdec : Z → nat → F
}.

(** [beta^t] for a step counter [t]. *)
Definition fpow {F : Type} `{!Scalar F} (x : F) (n : N) : F :=
  N.iter n (fmul x) fone.

(** Exact arithmetic: the real numbers.  An idealisation of the code's
    floats, without rounding, overflow, infinities or NaN; the arithmetic
    of the code is [Binary32] below. *)
#[export] Instance R_Scalar : Scalar R := {|
  fzero := 0%R;
  fone := 1%R;
  fadd := Rplus;
  fsub := Rminus;
  fmul := Rmult;
  fdiv := Rdiv;
  fsqrt := sqrt;
  fdec m k := (IZR m / 10 ^ k)%R
|}.

(** The arithmetic of the C++ type [float]: IEEE 754 binary32 with
    rounding to nearest, ties to even, infinities and NaN. *)
Module Binary32.
Definition prec : Z := 24.
Definition emax : Z := 128.

Definition float32 : Type := SpecFloat.spec_float.

(** The float nearest to an integer. *)
Definition ofZ (z : Z) : float32 := SpecFloat.binary_normalize prec emax z 0 false.

(** A decimal literal [m / 10^k] is the correctly rounded quotient as long
    as [m] and [10^k] are floats themselves, as for [0.9f], [0.999f] and
    [1e-8f]. *)
#[global] Instance scalar : Scalar float32 := {|
  fzero := SpecFloat.S754_zero false;
  fone := ofZ 1;
  fadd := SpecFloat.SFadd prec emax;
  fsub := SpecFloat.SFsub prec emax;
  fmul := SpecFloat.SFmul prec emax;
  fdiv := SpecFloat.SFdiv prec emax;
  fsqrt := SpecFloat.SFsqrt prec emax;
  fdec m k := SpecFloat.SFdiv prec emax (ofZ m) (ofZ (10 ^ Z.of_nat k))
|}.

(** [x < y] on floats (false when either is NaN). *)
Definition lt (x y : float32) : Prop := SpecFloat.SFltb x y = true.

End Binary32.

(** ** External collaborators *)

Section Collaborators.
Context {F : Type}.

(** Modelled from the spec: [training/training_state.h] is not under
    [src/]; the optimizer reads the two fields [eta] and [reset] of the
    [TrainingState] it is notified with. *)
Record TrainingState := { eta : F; reset : bool }.

(** Modelled from the spec: [optimizers/clippers.h] is not under [src/];
    a clipper has the single capability [clip], which rewrites a gradient
    buffer in place. *)
Record ClipperBase := { clip : list F → list F }.

(** Modelled from the spec: [tensors/backend.h] is not under [src/]; for
    [load] a device handle determines the length of the shard that lives
    on that device. *)
Record Backend := { shardSize : nat }.

(** Modelled from the spec: the storage layer is not under [src/].  What
    durable storage keeps under a logical name: for Adagrad the flat
    accumulator, for Adam the two flat moment buffers and the step
    counter (persisted once). *)
Inductive Checkpoint :=
| CkAdagrad (vGt : list F)
| CkAdam (vMt vVt : list F) (t : N).

(** Modelled from the spec: the persistence errors that [load] surfaces
    to its caller. *)
Inductive LoadError := StorageUnavailable | CorruptCheckpoint | SizeMismatch.
Inductive LoadStatus := Loaded | LoadFailed (e : LoadError).
End Collaborators.

Arguments TrainingState : clear implicits.
Arguments ClipperBase : clear implicits.
Arguments Checkpoint : clear implicits.

(** ** The base class *)

Section OptimizerBase.
Context {F : Type} {A : Type}.

(** An optimizer object: the two members of [OptimizerBase] and the
    members [A] that the subclass adds. *)
Record OptimizerBase := {
  eta_ : F;                              (* learning rate *)
  clipper_ : option (ClipperBase F);     (* clip gradient norm; nullptr = None *)
  derived : A
}.

(** [update(Tensor params, Tensor grads)] mutates the object and the two
    buffers it is handed: the machine state of one call. *)
Record Machine := {
  opt : OptimizerBase;
  params : list F;
  grads : list F
}.

(** The pure virtual members of [OptimizerBase]. *)
Class Algorithm := {
  updateImpl : Machine → Machine;
  parseParams : list F → OptimizerBase → OptimizerBase;
  resetStats : OptimizerBase → OptimizerBase
}.

Context `{!Algorithm}.

(** [clipper_->clip(grads)] *)
Definition clipGrads (c : ClipperBase F) (m : Machine) : Machine :=
  {| opt := opt m; params := params m; grads := clip c (grads m) |}.

(** [void update(Tensor params, Tensor grads)] *)
Definition update (m : Machine) : Machine :=
  let m :=
    match clipper_ (opt m) with
    | Some c => clipGrads c m
    | None => m
    end in
  updateImpl m.

(** [eta_ = state.eta;] *)
Definition adoptEta (state : TrainingState F) (o : OptimizerBase) : OptimizerBase :=
  {| eta_ := eta state; clipper_ := clipper_ o; derived := derived o |}.

Definition init (state : TrainingState F) (o : OptimizerBase) : OptimizerBase :=
  adoptEta state o.

Definition actAfterLoaded (state : TrainingState F) (o : OptimizerBase) : OptimizerBase :=
  adoptEta state o.

Definition actAfterEpoch (state : TrainingState F) (o : OptimizerBase) : OptimizerBase :=
  let o := adoptEta state o in
  if reset state then resetStats o else o.

Definition actAfterBatches (state : TrainingState F) (o : OptimizerBase) : OptimizerBase :=
  let o := adoptEta state o in
  if reset state then resetStats o else o.

Definition actAfterStalled (state : TrainingState F) (o : OptimizerBase) : OptimizerBase :=
  let o := adoptEta state o in
  if reset state then resetStats o else o.

(** [void setParams(const std::vector<float>& params)] *)
Definition setParams (ps : list F) (o : OptimizerBase) : OptimizerBase :=
  parseParams ps o.

(** The factory template [Optimizer<Algorithm>(eta, clipper, params)]:
    construct, then [setParams]. *)
Definition Optimizer (new : F → option (ClipperBase F) → OptimizerBase)
    (eta : F) (clipper : option (ClipperBase F)) (ps : list F) : OptimizerBase :=
  setParams ps (new eta clipper).

(** The notifications a training observer receives. *)
Inductive Event :=
| EvInit (state : TrainingState F)
| EvLoaded (state : TrainingState F)
| EvEpoch (state : TrainingState F)
| EvBatches (state : TrainingState F)
| EvStalled (state : TrainingState F).

Definition notify (ev : Event) (o : OptimizerBase) : OptimizerBase :=
  match ev with
  | EvInit state => init state o
  | EvLoaded state => actAfterLoaded state o
  | EvEpoch state => actAfterEpoch state o
  | EvBatches state => actAfterBatches state o
  | EvStalled state => actAfterStalled state o
  end.

(** A notification delivered while the training loop holds the parameter
    and gradient buffers: the observer methods receive the training state
    only. *)
Definition deliver (ev : Event) (m : Machine) : Machine :=
  {| opt := notify ev (opt m); params := params m; grads := grads m |}.
End OptimizerBase.

Arguments OptimizerBase : clear implicits.
Arguments Machine : clear implicits.
Arguments Algorithm : clear implicits.
Arguments Event : clear implicits.

(** ** Element-wise kernels and shard layout (shared by the subclasses) *)

Section Shards.
Context {F : Type} `{!Scalar F}.

(** A lazily allocated auxiliary buffer: a null tensor is allocated with
    the shape of the parameter shard and set to zero on first use. *)
Definition allocated (n : nat) (buf : option (list F)) : list F :=
  default (replicate n fzero) buf.

(** [tensor->set(0.f)] on a tensor that may not have been allocated. *)
Definition setZero (buf : option (list F)) : option (list F) :=
  (λ b, replicate (length b) fzero) <$> buf.

(** The invariant of an auxiliary buffer: once allocated it has the length
    of the parameter shard it shadows. *)
Definition shaped (n : nat) (buf : option (list F)) : Prop :=
∀ b, buf = Some b → length b = n.

(** Modelled from the spec: the gather capability of the communicator is
    not under [src/]; it asks every local shard for its values and
    concatenates them in shard order. *)
Definition gatherShards (n : nat) (getFn : nat → list F) : list F :=
  concat (getFn <$> seq 0 n).

(** Consecutive sub-ranges of [data] with the given lengths. *)
Fixpoint slices (sizes : list nat) (data : list F) : list (list F) :=
  match sizes with
  | [] => []
  | n :: sizes => take n data :: slices sizes (drop n data)
  end.

(** Modelled from the spec: the scatter capability of the communicator is
    not under [src/]; it re-splits the flat sequence into sub-ranges that
    match the shards' lengths and hands sub-range [i] to the setter of
    shard [i]. *)
Fixpoint scatterFrom {S : Type} (i : nat) (sizes : list nat) (data : list F)
    (setFn : nat → list F → S → S) (s : S) : S :=
  match sizes with
  | [] => s
  | n :: sizes => scatterFrom (Datatypes.S i) sizes (drop n data) setFn (setFn i (take n data) s)
  end.

Definition scatterShards {S : Type} (sizes : list nat) (data : list F)
    (setFn : nat → list F → S → S) (s : S) : S :=
  scatterFrom 0 sizes data setFn s.
End Shards.

(** ** Plain gradient descent *)

Module Sgd.
Section Sgd.
Context {F : Type} `{!Scalar F}.

(** [class Sgd] adds no members. *)
Record Members := {}.

(** [Sgd(float eta, Ptr<ClipperBase> clipper = nullptr)] *)
Definition Sgd (eta : F) (clipper : option (ClipperBase F)) : OptimizerBase F Members :=
  {| eta_ := eta; clipper_ := clipper; derived := Build_Members |}.

(** Modelled from the spec: the body of [Sgd::updateImpl] is not under
    [src/].  Per element: [param -= eta * grad]. *)
Definition updateImpl (m : Machine F Members) : Machine F Members :=
  let e := eta_ (opt m) in
  {| opt := opt m;
     params := zip_with (λ p g, fsub p (fmul e g)) (params m) (grads m);
     grads := grads m |}.

(** [virtual void parseParams(const std::vector<float>&) override {}] *)
Definition parseParams (ps : list F) (o : OptimizerBase F Members) : OptimizerBase F Members := o.

(** [virtual void resetStats() override {}] *)
Definition resetStats (o : OptimizerBase F Members) : OptimizerBase F Members := o.

#[global] Instance algorithm : Algorithm F Members :=
  Build_Algorithm updateImpl parseParams resetStats.
End Sgd.
Arguments Members : clear implicits.
End Sgd.

(** ** Adagrad *)

Module Adagrad.
Section Adagrad.
Context {F : Type} `{!Scalar F}.

(** [float eps_ = 1e-8f; Ptr<TensorAllocator> alloc_; Tensor gt_;]
    The allocator only provides the memory of [gt_]; a tensor that has
    not been allocated yet is [None]. *)
Record Members := { eps_ : F; gt_ : option (list F) }.

Abbreviation Opt := (OptimizerBase F Members).

(** [Adagrad(float eta, Ptr<ClipperBase> clipper = nullptr)] *)
Definition Adagrad (eta : F) (clipper : option (ClipperBase F)) : Opt :=
  {| eta_ := eta; clipper_ := clipper;
     derived := {| eps_ := fdec 1 8; gt_ := None |} |}.

Definition withGt (gt : option (list F)) (o : Opt) : Opt :=
  {| eta_ := eta_ o; clipper_ := clipper_ o;
     derived := {| eps_ := eps_ (derived o); gt_ := gt |} |}.

(** [if(params.size() > 0) eps_ = params[0];] *)
Definition parseParams (ps : list F) (o : Opt) : Opt :=
  if bool_decide (0 < length ps)
  then {| eta_ := eta_ o; clipper_ := clipper_ o;
          derived := {| eps_ := nth 0 ps (eps_ (derived o)); gt_ := gt_ (derived o) |} |}
  else o.

(** Modelled from the spec: the body of [Adagrad::updateImpl] is not
    under [src/].  [gt] is allocated to the shape of the parameter shard
    and zeroed on first use; per element [gt += grad^2] and
    [param -= eta * grad / (sqrt(gt) + eps)]. *)
Definition updateImpl (m : Machine F Members) : Machine F Members :=
  let o := opt m in
  let e := eta_ o in
  let eps := eps_ (derived o) in
  let gt := zip_with (λ a g, fadd a (fmul g g))
              (allocated (length (params m)) (gt_ (derived o))) (grads m) in
  {| opt := withGt (Some gt) o;
     params := zip_with (λ p '(a, g), fsub p (fdiv (fmul e g) (fadd (fsqrt a) eps)))
                 (params m) (zip gt (grads m));
     grads := grads m |}.

(** Modelled from the spec: the body of [Adagrad::resetStats] is not
    under [src/].  It zeroes [gt]; nothing happens when [gt] was never
    allocated. *)
Definition resetStats (o : Opt) : Opt := withGt (setZero (gt_ (derived o))) o.

#[global] Instance algorithm : Algorithm F Members :=
  Build_Algorithm updateImpl parseParams resetStats.

(** The auxiliary state of an Adagrad optimizer. *)
Definition aux (o : Opt) : option (list F) := gt_ (derived o).

(** The getter and setter that [save] and [load] hand to the gather and
    scatter capabilities; [opts] holds one optimizer per local shard. *)
Definition getGt (opts : list Opt) (localDeviceIndex : nat) : list F :=
  match opts !! localDeviceIndex with
  | Some o => default [] (gt_ (derived o))
  | None => []
  end.

Definition setGt (localDeviceIndex : nat) (range : list F) (opts : list Opt) : list Opt :=
  alter (withGt (Some range)) localDeviceIndex opts.

(** Modelled from the spec: the body of [Adagrad::save] is not under
    [src/].  Gather every shard's [gt] into one flat sequence; only the
    main process writes it under [name]. *)
Definition save (name : string) (opts : list Opt)
    (gatherFn : (nat → list F) → list F) (isMainProcess : bool)
    (storage : gmap string (Checkpoint F)) : gmap string (Checkpoint F) :=
  let vGt := gatherFn (getGt opts) in
  if isMainProcess then <[name := CkAdagrad vGt]> storage else storage.

(** Modelled from the spec: the body of [Adagrad::load] is not under
    [src/].  Read the flat sequence persisted under [name], then scatter
    it over the shards of [backends]; a missing or foreign checkpoint and
    a sequence whose length is not the total shard length are reported
    before any shard is written. *)
Definition load (name : string) (opts : list Opt) (backends : list Backend)
    (scatterFn : list F → (nat → list F → list Opt → list Opt) → list Opt → list Opt)
    (storage : gmap string (Checkpoint F)) : LoadStatus * list Opt :=
  match storage !! name with
  | None => (LoadFailed StorageUnavailable, opts)
  | Some (CkAdagrad vGt) =>
      if bool_decide (length vGt = sum_list (shardSize <$> backends))
      then (Loaded, scatterFn vGt setGt opts)
      else (LoadFailed SizeMismatch, opts)
  | Some _ => (LoadFailed CorruptCheckpoint, opts)
  end.
End Adagrad.
Arguments Members : clear implicits.
End Adagrad.

(** ** Adam *)

Module Adam.
Section Adam.
Context {F : Type} `{!Scalar F}.

(** [float beta1_ = 0.9f; float beta2_ = 0.999f; float eps_ = 1e-8f;
     float w_ = 0.0f; size_t t_; Ptr<TensorAllocator> alloc_;
     Tensor mt_; Tensor vt_;] *)
Record Members := {
  beta1_ : F;
  beta2_ : F;
  eps_ : F;
  w_ : F;
  t_ : N;
  mt_ : option (list F);
  vt_ : option (list F)
}.

Abbreviation Opt := (OptimizerBase F Members).

(** [Adam(float eta, Ptr<ClipperBase> clipper = nullptr)
      : OptimizerBase(eta, clipper), t_(0) {}] *)
Definition Adam (eta : F) (clipper : option (ClipperBase F)) : Opt :=
  {| eta_ := eta; clipper_ := clipper;
     derived := {| beta1_ := fdec 9 1; beta2_ := fdec 999 3; eps_ := fdec 1 8;
                   w_ := fzero; t_ := 0%N; mt_ := None; vt_ := None |} |}.

Definition withMembers (a : Members) (o : Opt) : Opt :=
  {| eta_ := eta_ o; clipper_ := clipper_ o; derived := a |}.

Definition withBeta1 (x : F) (a : Members) : Members :=
  {| beta1_ := x; beta2_ := beta2_ a; eps_ := eps_ a; w_ := w_ a;
     t_ := t_ a; mt_ := mt_ a; vt_ := vt_ a |}.
Definition withBeta2 (x : F) (a : Members) : Members :=
  {| beta1_ := beta1_ a; beta2_ := x; eps_ := eps_ a; w_ := w_ a;
     t_ := t_ a; mt_ := mt_ a; vt_ := vt_ a |}.
Definition withEps (x : F) (a : Members) : Members :=
  {| beta1_ := beta1_ a; beta2_ := beta2_ a; eps_ := x; w_ := w_ a;
     t_ := t_ a; mt_ := mt_ a; vt_ := vt_ a |}.
Definition withW (x : F) (a : Members) : Members :=
  {| beta1_ := beta1_ a; beta2_ := beta2_ a; eps_ := eps_ a; w_ := x;
     t_ := t_ a; mt_ := mt_ a; vt_ := vt_ a |}.
Definition withStats (t : N) (mt vt : option (list F)) (a : Members) : Members :=
  {| beta1_ := beta1_ a; beta2_ := beta2_ a; eps_ := eps_ a; w_ := w_ a;
     t_ := t; mt_ := mt; vt_ := vt |}.

(** [if(params.size() > 0) beta1_ = params[0];
     if(params.size() > 1) beta2_ = params[1];
     if(params.size() > 2) eps_ = params[2];
     if(params.size() > 3) w_ = params[3];] *)
Definition parseParams (ps : list F) (o : Opt) : Opt :=
  let a := derived o in
  let a := if bool_decide (0 < length ps) then withBeta1 (nth 0 ps (beta1_ a)) a else a in
  let a := if bool_decide (1 < length ps) then withBeta2 (nth 1 ps (beta2_ a)) a else a in
  let a := if bool_decide (2 < length ps) then withEps (nth 2 ps (eps_ a)) a else a in
  let a := if bool_decide (3 < length ps) then withW (nth 3 ps (w_ a)) a else a in
  withMembers a o.

(** [t_] is a [size_t]: incrementing wraps at [2^64]. *)
Definition nextStep (t : N) : N := ((t + 1) mod 2 ^ 64)%N.

(** The bias-corrected moments of the update rule. *)
Definition mHat (a : Members) (mt : F) : F :=
  fdiv mt (fsub fone (fpow (beta1_ a) (t_ a))).
Definition vHat (a : Members) (vt : F) : F :=
  fdiv vt (fsub fone (fpow (beta2_ a) (t_ a))).

(** Modelled from the spec: the body of [Adam::updateImpl] is not under
    [src/].  [mt] and [vt] are allocated to the shape of the parameter
    shard and zeroed on first use; per call [t += 1]; per element
    [mt = beta1*mt + (1-beta1)*grad], [vt = beta2*vt + (1-beta2)*grad^2],
    [mHat = mt / (1 - beta1^t)], [vHat = vt / (1 - beta2^t)] and
    [param -= eta * mHat / (sqrt(vHat) + eps) + eta * weightDecay * param]. *)
Definition updateImpl (m : Machine F Members) : Machine F Members :=
  let o := opt m in
  let a := derived o in
  let e := eta_ o in
  let n := length (params m) in
  let mt := zip_with (λ x g, fadd (fmul (beta1_ a) x) (fmul (fsub fone (beta1_ a)) g))
              (allocated n (mt_ a)) (grads m) in
  let vt := zip_with (λ x g, fadd (fmul (beta2_ a) x) (fmul (fsub fone (beta2_ a)) (fmul g g)))
              (allocated n (vt_ a)) (grads m) in
  let a' := withStats (nextStep (t_ a)) (Some mt) (Some vt) a in
  {| opt := withMembers a' o;
     params := zip_with
                 (λ p '(x, y),
                    fsub p (fadd (fdiv (fmul e (mHat a' x)) (fadd (fsqrt (vHat a' y)) (eps_ a)))
                                 (fmul (fmul e (w_ a)) p)))
                 (params m) (zip mt vt);
     grads := grads m |}.

(** Modelled from the spec: the body of [Adam::resetStats] is not under
    [src/].  It zeroes [mt] and [vt] and resets [t] to 0; nothing happens
    to a buffer that was never allocated. *)
Definition resetStats (o : Opt) : Opt :=
  let a := derived o in
  withMembers (withStats 0%N (setZero (mt_ a)) (setZero (vt_ a)) a) o.

#[global] Instance algorithm : Algorithm F Members :=
  Build_Algorithm updateImpl parseParams resetStats.

(** The auxiliary state of an Adam optimizer. *)
Definition aux (o : Opt) : option (list F) * option (list F) * N :=
(mt_ (derived o), vt_ (derived o), t_ (derived o)).

(** Getters and setters for [save] and [load]; [opts] holds one optimizer
    per local shard. *)
Definition getMt (opts : list Opt) (localDeviceIndex : nat) : list F :=
  match opts !! localDeviceIndex with
  | Some o => default [] (mt_ (derived o))
  | None => []
  end.

Definition getVt (opts : list Opt) (localDeviceIndex : nat) : list F :=
  match opts !! localDeviceIndex with
  | Some o => default [] (vt_ (derived o))
  | None => []
  end.

Definition setMt (localDeviceIndex : nat) (range : list F) (opts : list Opt) : list Opt :=
  alter (λ o, withMembers (withStats (t_ (derived o)) (Some range) (vt_ (derived o)) (derived o)) o)
    localDeviceIndex opts.

Definition setVt (localDeviceIndex : nat) (range : list F) (opts : list Opt) : list Opt :=
  alter (λ o, withMembers (withStats (t_ (derived o)) (mt_ (derived o)) (Some range) (derived o)) o)
    localDeviceIndex opts.

Definition setT (t : N) (o : Opt) : Opt :=
  withMembers (withStats t (mt_ (derived o)) (vt_ (derived o)) (derived o)) o.

(** The step counter is shared by all shards; the one that is persisted
    is read from the first. *)
Definition sharedT (opts : list Opt) : N :=
  match opts with
  | o :: _ => t_ (derived o)
  | [] => 0%N
  end.

(** Modelled from the spec: the body of [Adam::save] is not under [src/].
    Gather every shard's [mt] and [vt] into two flat sequences and take
    the step counter once; only the main process writes them under
    [name]. *)
Definition save (name : string) (opts : list Opt)
    (gatherFn : (nat → list F) → list F) (isMainProcess : bool)
    (storage : gmap string (Checkpoint F)) : gmap string (Checkpoint F) :=
  let vMt := gatherFn (getMt opts) in
  let vVt := gatherFn (getVt opts) in
  if isMainProcess then <[name := CkAdam vMt vVt (sharedT opts)]> storage else storage.

(** Modelled from the spec: the body of [Adam::load] is not under [src/].
    Read what is persisted under [name], scatter both flat sequences over
    the shards of [backends] and replicate the step counter to every
    shard; a missing or foreign checkpoint and sequences whose length is
    not the total shard length are reported before any shard is
    written. *)
Definition load (name : string) (opts : list Opt) (backends : list Backend)
    (scatterFn : list F → (nat → list F → list Opt → list Opt) → list Opt → list Opt)
    (storage : gmap string (Checkpoint F)) : LoadStatus * list Opt :=
  match storage !! name with
  | None => (LoadFailed StorageUnavailable, opts)
  | Some (CkAdam vMt vVt t) =>
      let total := sum_list (shardSize <$> backends) in
      if bool_decide (length vMt = total ∧ length vVt = total)
      then (Loaded, setT t <$> scatterFn vVt setVt (scatterFn vMt setMt opts))
      else (LoadFailed SizeMismatch, opts)
  | Some _ => (LoadFailed CorruptCheckpoint, opts)
  end.
End Adam.
Arguments Members : clear implicits.
End Adam.

(** ** The training loop around the optimizer *)

Section Training.
Context {F A : Type} `{!Algorithm F A}.

(** The gradient buffer as the numeric update sees it. *)
Definition clippedGrads (m : Machine F A) : list F :=
  match clipper_ (opt m) with
  | Some c => clip c (grads m)
  | None => grads m
  end.

(** One training step: the gradients of the step are produced outside the
    optimizer, then [update] runs on the two buffers. *)
Definition trainStep (gs : list F) (m : Machine F A) : Machine F A :=
  update {| opt := opt m; params := params m; grads := gs |}.

(** The three notifications that look at [state.reset]. *)
Definition resetEvents (state : TrainingState F) : list (Event F) :=
  [EvEpoch state; EvBatches state; EvStalled state].

(** The two notifications that do not. *)
Definition plainEvents (state : TrainingState F) : list (Event F) :=
  [EvInit state; EvLoaded state].
End Training.

(** ** Views for stating properties of the header's code *)

Section Observers.
Context {F A : Type} `{!Algorithm F A}.

(** The training state that a notification carries. *)
Definition stateOf (ev : Event F) : TrainingState F :=
  match ev with
  | EvInit state | EvLoaded state | EvEpoch state | EvBatches state | EvStalled state =>
      state
  end.

(** The notifications of a training run, delivered in order. *)
Definition notifyAll (evs : list (Event F)) (o : OptimizerBase F A) : OptimizerBase F A :=
  foldl (λ o ev, notify ev o) o evs.
End Observers.

Section HyperParams.
Context {F : Type}.

(** Adam's hyper-parameters in the positional order of [Adam::parseParams]. *)
Definition AdamHyperParams (o : OptimizerBase F (Adam.Members F)) : list F :=
  [Adam.beta1_ (derived o); Adam.beta2_ (derived o);
   Adam.eps_ (derived o); Adam.w_ (derived o)].

(** Adagrad's hyper-parameter in the positional order of
    [Adagrad::parseParams]. *)
Definition AdagradHyperParams (o : OptimizerBase F (Adagrad.Members F)) : list F :=
  [Adagrad.eps_ (derived o)].
End HyperParams.

(** * Properties *)

(** ** Clipping precedes the numeric update *)

Section BaseProperties.
Context {F A : Type} `{!Algorithm F A}.

(** C1: every call of [update] first applies the configured clipper to the
    gradient buffer, in place, and then runs the algorithm's [updateImpl]
    on the parameters and the clipped gradients; without a clipper
    [updateImpl] runs on the gradients as they were passed. *)
Theorem update_clips_then_updates (m : Machine F A) :
  update m =
    match clipper_ (opt m) with
    | Some c => updateImpl {| opt := opt m; params := params m; grads := clip c (grads m) |}
    | None => updateImpl m
    end.
Proof.
  unfold update, clipGrads.
  destruct (clipper_ (opt m)); reflexivity.
Qed.

Lemma update_sees_clippedGrads (m : Machine F A) :
  update m = updateImpl {| opt := opt m; params := params m; grads := clippedGrads m |}.
Proof.
  unfold update, clipGrads, clippedGrads.
  destruct (clipper_ (opt m)); [reflexivity | by destruct m].
Qed.

(** ** Notifications *)

Lemma deliver_frame (ev : Event F) (m : Machine F A) :
  params (deliver ev m) = params m ∧ grads (deliver ev m) = grads m.
Proof. by split. Qed.

Lemma notify_resetEvents (state : TrainingState F) (o : OptimizerBase F A) :
  Forall (λ ev, notify ev o =
                if reset state then resetStats (adoptEta state o) else adoptEta state o)
         (resetEvents state).
Proof. by repeat constructor. Qed.

(** C10: [init] and [actAfterLoaded] only adopt [state.eta]: the clipper
    and everything the subclass owns, auxiliary state included, stay as
    they are whether or not [state.reset] is set, and the parameter and
    gradient buffers are not involved. *)
Theorem init_and_loaded_only_adopt_eta (state : TrainingState F) (m : Machine F A) :
  Forall (λ ev,
            notify ev (opt m) =
              {| eta_ := eta state; clipper_ := clipper_ (opt m); derived := derived (opt m) |}
            ∧ params (deliver ev m) = params m
            ∧ grads (deliver ev m) = grads m)
         (plainEvents state)
  ∧ init state (opt m) = init {| eta := eta state; reset := negb (reset state) |} (opt m)
  ∧ actAfterLoaded state (opt m)
    = actAfterLoaded {| eta := eta state; reset := negb (reset state) |} (opt m).
Proof.
  split; [| by split].
  by repeat constructor.
Qed.
End BaseProperties.

Section ResetProperties.
Context {F : Type} `{!Scalar F}.

Lemma setZero_spec (buf : option (list F)) :
  match buf with
  | Some b => setZero buf = Some (replicate (length b) fzero)
  | None => setZero buf = None
  end.
Proof. by destruct buf. Qed.

Lemma Sgd_reset (state : TrainingState F) (o : OptimizerBase F Sgd.Members) :
  Forall (λ ev, notify ev o = adoptEta state o) (resetEvents state).
Proof.
  eapply Forall_impl; [apply (notify_resetEvents state o) |].
  intros ev ->. by destruct (reset state).
Qed.

Lemma Adagrad_reset (state : TrainingState F) (o : OptimizerBase F (Adagrad.Members F)) :
  Forall (λ ev, notify ev o =
     {| eta_ := eta state;
        clipper_ := clipper_ o;
        derived :=
          {| Adagrad.eps_ := Adagrad.eps_ (derived o);
             Adagrad.gt_ := if reset state then setZero (Adagrad.gt_ (derived o))
                            else Adagrad.gt_ (derived o) |} |})
    (resetEvents state).
Proof.
  eapply Forall_impl; [apply (notify_resetEvents state o) |].
  intros ev ->. destruct o as [e c [eps gt]]. by destruct (reset state).
Qed.

Lemma Adam_reset (state : TrainingState F) (o : OptimizerBase F (Adam.Members F)) :
  Forall (λ ev, notify ev o =
     {| eta_ := eta state;
        clipper_ := clipper_ o;
        derived :=
          {| Adam.beta1_ := Adam.beta1_ (derived o);
             Adam.beta2_ := Adam.beta2_ (derived o);
             Adam.eps_ := Adam.eps_ (derived o);
             Adam.w_ := Adam.w_ (derived o);
             Adam.t_ := if reset state then 0%N else Adam.t_ (derived o);
             Adam.mt_ := if reset state then setZero (Adam.mt_ (derived o))
                         else Adam.mt_ (derived o);
             Adam.vt_ := if reset state then setZero (Adam.vt_ (derived o))
                         else Adam.vt_ (derived o) |} |})
    (resetEvents state).
Proof.
  eapply Forall_impl; [apply (notify_resetEvents state o) |].
  intros ev ->. destruct o as [e c [b1 b2 eps w t mt vt]]. by destruct (reset state).
Qed.

(** C5: [actAfterEpoch], [actAfterBatches] and [actAfterStalled] adopt
    [state.eta] as the learning rate and, exactly when [state.reset] is
    set, clear the auxiliary state: a buffer that is allocated becomes
    all zero, one that was never allocated stays so (no failure), and
    Adam's step counter becomes 0.  When [state.reset] is not set the
    auxiliary state is unchanged.  Clipper and hyper-parameters are never
    changed, and the parameter and gradient buffers are not touched. *)
Theorem reset_events_adopt_eta_and_reset (state : TrainingState F) :
  (∀ o : OptimizerBase F Sgd.Members,
     Forall (λ ev, notify ev o =
               {| eta_ := eta state; clipper_ := clipper_ o; derived := derived o |})
            (resetEvents state))
  ∧ (∀ o : OptimizerBase F (Adagrad.Members F),
     Forall (λ ev, notify ev o =
       {| eta_ := eta state;
          clipper_ := clipper_ o;
          derived :=
            {| Adagrad.eps_ := Adagrad.eps_ (derived o);
               Adagrad.gt_ := if reset state then setZero (Adagrad.gt_ (derived o))
                              else Adagrad.gt_ (derived o) |} |})
      (resetEvents state))
  ∧ (∀ o : OptimizerBase F (Adam.Members F),
     Forall (λ ev, notify ev o =
       {| eta_ := eta state;
          clipper_ := clipper_ o;
          derived :=
            {| Adam.beta1_ := Adam.beta1_ (derived o);
               Adam.beta2_ := Adam.beta2_ (derived o);
               Adam.eps_ := Adam.eps_ (derived o);
               Adam.w_ := Adam.w_ (derived o);
               Adam.t_ := if reset state then 0%N else Adam.t_ (derived o);
               Adam.mt_ := if reset state then setZero (Adam.mt_ (derived o))
                           else Adam.mt_ (derived o);
               Adam.vt_ := if reset state then setZero (Adam.vt_ (derived o))
                           else Adam.vt_ (derived o) |} |})
      (resetEvents state))
  ∧ (∀ buf : option (list F),
       match buf with
       | Some b => setZero buf = Some (replicate (length b) fzero)
       | None => setZero buf = None
       end)
  ∧ (∀ (A : Type) (alg : Algorithm F A) (m : Machine F A),
       Forall (λ ev,
                 notify ev (opt m) =
                   (if reset state then resetStats (adoptEta state (opt m))
                    else adoptEta state (opt m))
                 ∧ params (deliver ev m) = params m
                 ∧ grads (deliver ev m) = grads m)
              (resetEvents state)).
Proof.
  split_and!.
  - intros o. apply Sgd_reset.
  - apply Adagrad_reset.
  - apply Adam_reset.
  - apply setZero_spec.
  - intros A alg m. by repeat constructor.
Qed.
End ResetProperties.

(** ** Positional hyper-parameters *)

Section ParseProperties.
Context {F : Type} `{!Scalar F}.

Ltac decide_sizes :=
  repeat first
    [ rewrite bool_decide_eq_true_2 by (simpl; lia)
    | rewrite bool_decide_eq_false_2 by (simpl; lia) ].

Lemma Adam_setParams_nth (ps : list F) (o : OptimizerBase F (Adam.Members F)) :
  setParams ps o =
    {| eta_ := eta_ o;
       clipper_ := clipper_ o;
       derived :=
         {| Adam.beta1_ := nth 0 ps (Adam.beta1_ (derived o));
            Adam.beta2_ := nth 1 ps (Adam.beta2_ (derived o));
            Adam.eps_ := nth 2 ps (Adam.eps_ (derived o));
            Adam.w_ := nth 3 ps (Adam.w_ (derived o));
            Adam.t_ := Adam.t_ (derived o);
            Adam.mt_ := Adam.mt_ (derived o);
            Adam.vt_ := Adam.vt_ (derived o) |} |}.
Proof.
  destruct o as [e c [b1 b2 eps w t mt vt]].
  unfold setParams, parseParams, Adam.algorithm, Adam.parseParams.
  destruct ps as [|x0 [|x1 [|x2 [|x3 ps]]]]; decide_sizes; reflexivity.
Qed.

Lemma Adagrad_setParams_nth (ps : list F) (o : OptimizerBase F (Adagrad.Members F)) :
  setParams ps o =
    {| eta_ := eta_ o;
       clipper_ := clipper_ o;
       derived :=
         {| Adagrad.eps_ := nth 0 ps (Adagrad.eps_ (derived o));
            Adagrad.gt_ := Adagrad.gt_ (derived o) |} |}.
Proof.
  destruct o as [e c [eps gt]].
  unfold setParams, parseParams, Adagrad.algorithm, Adagrad.parseParams.
  destruct ps as [|x0 ps]; decide_sizes; reflexivity.
Qed.

Lemma nth_take_lt (i n : nat) (ps : list F) (d : F) :
  i < n → nth i (take n ps) d = nth i ps d.
Proof.
  revert i n. induction ps as [|x ps IH]; intros i n Hi.
  - by destruct n, i.
  - destruct n as [|n]; [lia |]. destruct i as [|i]; [done |].
    simpl. apply IH. lia.
Qed.

(** C6: [setParams] on Adam reads its list as
    [[beta1?, beta2?, eps?, weightDecay?]]: position [i] overwrites
    hyper-parameter [i] when the list has it, a hyper-parameter whose
    position is missing keeps its value, which on a newly constructed
    optimizer is the default (0.9, 0.999, 1e-8, 0.0), and values beyond
    the fourth are ignored.  Learning rate, clipper, step counter and
    moment buffers are not changed.  On Adagrad the list is [[eps?]] with
    default 1e-8. *)
Theorem setParams_is_positional (ps : list F) :
  (∀ eta clipper,
     Optimizer Adam.Adam eta clipper ps =
       {| eta_ := eta;
          clipper_ := clipper;
          derived :=
            {| Adam.beta1_ := nth 0 ps (fdec 9 1);
               Adam.beta2_ := nth 1 ps (fdec 999 3);
               Adam.eps_ := nth 2 ps (fdec 1 8);
               Adam.w_ := nth 3 ps fzero;
               Adam.t_ := 0%N;
               Adam.mt_ := None;
               Adam.vt_ := None |} |})
  ∧ (∀ o : OptimizerBase F (Adam.Members F),
       setParams ps o =
         {| eta_ := eta_ o;
            clipper_ := clipper_ o;
            derived :=
              {| Adam.beta1_ := nth 0 ps (Adam.beta1_ (derived o));
                 Adam.beta2_ := nth 1 ps (Adam.beta2_ (derived o));
                 Adam.eps_ := nth 2 ps (Adam.eps_ (derived o));
                 Adam.w_ := nth 3 ps (Adam.w_ (derived o));
                 Adam.t_ := Adam.t_ (derived o);
                 Adam.mt_ := Adam.mt_ (derived o);
                 Adam.vt_ := Adam.vt_ (derived o) |} |})
  ∧ (∀ o : OptimizerBase F (Adam.Members F), setParams ps o = setParams (take 4 ps) o)
  ∧ (∀ eta clipper,
       Optimizer Adagrad.Adagrad eta clipper ps =
         {| eta_ := eta;
            clipper_ := clipper;
            derived := {| Adagrad.eps_ := nth 0 ps (fdec 1 8); Adagrad.gt_ := None |} |})
  ∧ (∀ o : OptimizerBase F (Adagrad.Members F),
       setParams ps o =
         {| eta_ := eta_ o;
            clipper_ := clipper_ o;
            derived :=
              {| Adagrad.eps_ := nth 0 ps (Adagrad.eps_ (derived o));
                 Adagrad.gt_ := Adagrad.gt_ (derived o) |} |})
  ∧ (∀ o : OptimizerBase F (Adagrad.Members F), setParams ps o = setParams (take 1 ps) o).
Proof.
  split_and!.
  - intros eta clipper. unfold Optimizer. by rewrite Adam_setParams_nth.
  - apply Adam_setParams_nth.
  - intros o. rewrite !Adam_setParams_nth.
    by rewrite !nth_take_lt by lia.
  - intros eta clipper. unfold Optimizer. by rewrite Adagrad_setParams_nth.
  - apply Adagrad_setParams_nth.
  - intros o. rewrite !Adagrad_setParams_nth.
    by rewrite !nth_take_lt by lia.
Qed.
End ParseProperties.

Section Arithmetic.
Import Binary32.
Local Open Scope R_scope.









Lemma Adam_first_step_moments {F : Type} `{!Scalar F}
    (eta : F) (clipper : option (ClipperBase F)) (ps gs : list F) (g : F) :
  let m := {| opt := Adam.Adam eta clipper; params := ps; grads := gs |} in
  clippedGrads m = replicate (length ps) g →
  let a := derived (opt (update m)) in
  Adam.t_ a = 1%N
  ∧ ∃ mt vt,
      Adam.mt_ a = Some mt ∧ Adam.vt_ a = Some vt
      ∧ Adam.mHat a <$> mt =
          replicate (length ps)
            (fdiv (fadd (fmul (fdec 9 1) fzero) (fmul (fsub fone (fdec 9 1)) g))
                  (fsub fone (fmul (fdec 9 1) fone)))
      ∧ Adam.vHat a <$> vt =
          replicate (length ps)
            (fdiv (fadd (fmul (fdec 999 3) fzero)
                        (fmul (fsub fone (fdec 999 3)) (fmul g g)))
                  (fsub fone (fmul (fdec 999 3) fone))).
Proof.
  intros m Hg a. subst a. rewrite update_sees_clippedGrads, Hg. subst m.
  unfold updateImpl, Adam.algorithm, Adam.updateImpl, allocated.
  cbn [opt derived Adam.Adam Adam.mt_ Adam.vt_ Adam.t_ Adam.beta1_ Adam.beta2_
       Adam.withMembers Adam.withStats params grads default eta_ clipper_].
  split; [done |].
  eexists _, _. split_and!; [done | done | |].
  - rewrite !zip_with_replicate. etrans; [apply fmap_replicate |]. done.
  - rewrite !zip_with_replicate. etrans; [apply fmap_replicate |]. done.
Qed.

(** C2, amended: one [update] of a newly constructed Adam optimizer
    (default hyper-parameters, step counter 0) with the constant gradient
    [g] sets the step counter to 1 and computes, on every element, the
    bias-corrected moments [mHat = (beta1*0 + (1-beta1)*g) / (1 - beta1^1)]
    and [vHat = (beta2*0 + (1-beta2)*g^2) / (1 - beta2^1)] in the
    arithmetic of the code.  In exact arithmetic these are [g] and
    [g^2]. *)
Theorem Adam_first_step_bias_correction :
  (∀ (F : Type) (SF : Scalar F) (eta : F) (clipper : option (ClipperBase F))
     (ps gs : list F) (g : F),
     clippedGrads {| opt := Adam.Adam eta clipper; params := ps; grads := gs |}
     = replicate (length ps) g →
     let a := derived (opt (update
                {| opt := Adam.Adam eta clipper; params := ps; grads := gs |})) in
     Adam.t_ a = 1%N
     ∧ ∃ mt vt,
         Adam.mt_ a = Some mt ∧ Adam.vt_ a = Some vt
         ∧ Adam.mHat a <$> mt =
             replicate (length ps)
               (fdiv (fadd (fmul (fdec 9 1) fzero) (fmul (fsub fone (fdec 9 1)) g))
                     (fsub fone (fmul (fdec 9 1) fone)))
         ∧ Adam.vHat a <$> vt =
             replicate (length ps)
               (fdiv (fadd (fmul (fdec 999 3) fzero)
                           (fmul (fsub fone (fdec 999 3)) (fmul g g)))
                     (fsub fone (fmul (fdec 999 3) fone))))
  ∧ (∀ (eta : R) (clipper : option (ClipperBase R)) (ps gs : list R) (g : R),
       clippedGrads {| opt := Adam.Adam eta clipper; params := ps; grads := gs |}
       = replicate (length ps) g →
       let a := derived (opt (update
                  {| opt := Adam.Adam eta clipper; params := ps; grads := gs |})) in
       Adam.t_ a = 1%N
       ∧ ∃ mt vt,
           Adam.mt_ a = Some mt ∧ Adam.vt_ a = Some vt
           ∧ Adam.mHat a <$> mt = replicate (length ps) g
           ∧ Adam.vHat a <$> vt = replicate (length ps) (g * g)).
Proof.
  split.
  - intros F SF eta clipper ps gs g Hg.
    apply (Adam_first_step_moments eta clipper ps gs g Hg).
  - intros eta clipper ps gs g Hg.
    destruct (Adam_first_step_moments eta clipper ps gs g Hg)
      as (Ht & mt & vt & Hmt & Hvt & Hm & Hv).
    split; [exact Ht |]. exists mt, vt. split_and!; [exact Hmt | exact Hvt | |].
    + rewrite Hm. f_equal. simpl. field; lra.
    + rewrite Hv. f_equal. simpl. field; lra.
Qed.

(** C2 as stated fails in the arithmetic of the code: with the constant
    gradient 100.0 the first step computes [mHat = 99.99999], one unit in
    the last place below [g], and with the constant gradient 127.0 it
    computes [vHat = 16128.999], one unit in the last place below
    [g^2 = 16129]. *)
Lemma Adam_first_step_binary32_rounds :
  (fdiv (fadd (fmul (fdec 9 1) fzero) (fmul (fsub fone (fdec 9 1)) (fdec 100 0)))
        (fsub fone (fmul (fdec 9 1) fone)) : float32)
  = SpecFloat.S754_finite false 13107199 (-17)
  ∧ (fdec 100 0 : float32) = SpecFloat.S754_finite false 13107200 (-17)
  ∧ (fdiv (fadd (fmul (fdec 999 3) fzero)
                (fmul (fsub fone (fdec 999 3)) (fmul (fdec 127 0) (fdec 127 0))))
          (fsub fone (fmul (fdec 999 3) fone)) : float32)
    = SpecFloat.S754_finite false 16516095 (-10)
  ∧ (fmul (fdec 127 0) (fdec 127 0) : float32) = SpecFloat.S754_finite false 16516096 (-10)
  ∧ ¬ (∃ mt vt,
         Adam.mt_ (derived (opt (update {| opt := Adam.Adam (fdec 1 3) None;
                                           params := [fone];
                                           grads := [fdec 100 0 : float32] |})))
         = Some mt
         ∧ Adam.vt_ (derived (opt (update {| opt := Adam.Adam (fdec 1 3) None;
                                             params := [fone];
                                             grads := [fdec 100 0 : float32] |})))
           = Some vt
         ∧ Adam.mHat (derived (opt (update {| opt := Adam.Adam (fdec 1 3) None;
                                              params := [fone];
                                              grads := [fdec 100 0 : float32] |})))
             <$> mt
           = replicate 1 (fdec 100 0)
         ∧ Adam.vHat (derived (opt (update {| opt := Adam.Adam (fdec 1 3) None;
                                              params := [fone];
                                              grads := [fdec 100 0 : float32] |})))
             <$> vt
           = replicate 1 (fmul (fdec 100 0) (fdec 100 0))).
Proof.
  split_and!; [vm_compute; reflexivity.. |].
  intros (mt & vt & Hmt & _ & Hm & _).
  vm_compute in Hmt. injection Hmt as <-.
  vm_compute in Hm. discriminate Hm.
Qed.

Lemma Adagrad_step_sizes (c e s1 s2 : R) :
  0 < c → 0 < e → 0 <= s1 → s1 < s2 →
  0 < c / (s2 + e) ∧ c / (s2 + e) < c / (s1 + e).
Proof.
  intros Hc He Hs1 Hs.
  split.
  - apply Rdiv_lt_0_compat; lra.
  - unfold Rdiv. apply Rmult_lt_compat_l; [done |].
    apply Rinv_lt_contravar; nra.
Qed.

(** C3: for Adagrad with [eta = 0.1] and [eps = 1e-8], one parameter that
    starts at 1.0 and the gradient 2.0 on three consecutive steps, [gt] is
    4.0 after the first step and 12.0 after the third, the parameter
    strictly decreases with every step and each decrease is strictly
    smaller than the one before (exact arithmetic). *)
Theorem Adagrad_three_steps :
  let m0 := {| opt := Optimizer Adagrad.Adagrad (fdec 1 1) None [fdec 1 8];
               params := [1]; grads := [] |} in
  let m1 := trainStep [2] m0 in
  let m2 := trainStep [2] m1 in
  let m3 := trainStep [2] m2 in
  Adagrad.gt_ (derived (opt m1)) = Some [4]
  ∧ Adagrad.gt_ (derived (opt m3)) = Some [12]
  ∧ ∃ p1 p2 p3,
      params m1 = [p1] ∧ params m2 = [p2] ∧ params m3 = [p3]
      ∧ p1 < 1 ∧ p2 < p1 ∧ p3 < p2
      ∧ p1 - p2 < 1 - p1 ∧ p2 - p3 < p1 - p2.
Proof.
  intros m0 m1 m2 m3. subst m0 m1 m2 m3.
  unfold trainStep, update. simpl.
  set (c := 1 / (10 * 1) * 2).
  set (e := 1 / _).
  set (s1 := sqrt (0 + 2 * 2)).
  set (s2 := sqrt (0 + 2 * 2 + 2 * 2)).
  set (s3 := sqrt (0 + 2 * 2 + 2 * 2 + 2 * 2)).
  assert (0 < e) as He by (unfold e; lra).
  assert (0 < c) as Hc by (unfold c; lra).
  assert (0 <= s1) as Hs1 by apply sqrt_pos.
  assert (s1 < s2) as Hs12 by (apply sqrt_lt_1_alt; lra).
  assert (s2 < s3) as Hs23 by (apply sqrt_lt_1_alt; lra).
  assert (0 < c / (s1 + e)) as Hd1 by (apply Rdiv_lt_0_compat; lra).
  destruct (Adagrad_step_sizes c e s1 s2) as [Hd2 Hd12]; [done.. |].
  destruct (Adagrad_step_sizes c e s2 s3) as [Hd3 Hd23]; [lra.. |].
  split_and!; [f_equal; f_equal; lra | f_equal; f_equal; lra |].
  eexists _, _, _. split_and!; [done | done | done | lra..].
Qed.
(** The scenario of C3 evaluated in the binary32 arithmetic of the code:
    the same conclusions hold there. *)
Lemma Adagrad_three_steps_binary32 :
  let m0 := {| opt := Optimizer Adagrad.Adagrad (fdec 1 1 : float32) None [fdec 1 8];
               params := [fone]; grads := [] |} in
  let m1 := trainStep [fdec 2 0] m0 in
  let m2 := trainStep [fdec 2 0] m1 in
  let m3 := trainStep [fdec 2 0] m2 in
  Adagrad.gt_ (derived (opt m1)) = Some [fdec 4 0]
  ∧ Adagrad.gt_ (derived (opt m3)) = Some [fdec 12 0]
  ∧ ∃ p1 p2 p3,
      params m1 = [p1] ∧ params m2 = [p2] ∧ params m3 = [p3]
      ∧ lt p1 fone ∧ lt p2 p1 ∧ lt p3 p2
      ∧ lt (fsub p1 p2) (fsub fone p1) ∧ lt (fsub p2 p3) (fsub p1 p2).
Proof.
  intros m0 m1 m2 m3.
  split; [vm_compute; reflexivity |]. split; [vm_compute; reflexivity |].
  exists (SpecFloat.S754_finite false 15099494 (-24)),
         (SpecFloat.S754_finite false 13913166 (-24)),
         (SpecFloat.S754_finite false 12944533 (-24)).
  split_and!; vm_compute; reflexivity.
Qed.
End Arithmetic.

Section ResetThenUpdate.
Context {F : Type} `{!Scalar F}.

Lemma allocated_setZero (n : nat) (buf : option (list F)) :
  shaped n buf → allocated n (setZero buf) = allocated n None.
Proof.
  intros Hn. destruct buf as [b|]; [| done].
  simpl. by rewrite (Hn b).
Qed.

Lemma Adagrad_update_after_reset (state : TrainingState F)
    (o : OptimizerBase F (Adagrad.Members F)) (ps gs : list F) :
  reset state = true →
  shaped (length ps) (Adagrad.gt_ (derived o)) →
  Forall (λ ev,
      update {| opt := notify ev o; params := ps; grads := gs |} =
      update {| opt := Optimizer Adagrad.Adagrad (eta state) (clipper_ o)
                         [Adagrad.eps_ (derived o)];
                params := ps; grads := gs |})
    (resetEvents state).
Proof.
  intros Hr Hn.
  eapply Forall_impl; [apply (Adagrad_reset state o) |].
  intros ev ->. rewrite Hr.
  unfold Optimizer. rewrite Adagrad_setParams_nth.
  unfold update, updateImpl, Adagrad.algorithm, Adagrad.updateImpl, clipGrads. simpl.
  destruct (clipper_ o); simpl; by rewrite (allocated_setZero _ _ Hn).
Qed.

Lemma Adam_update_after_reset (state : TrainingState F)
    (o : OptimizerBase F (Adam.Members F)) (ps gs : list F) :
  reset state = true →
  shaped (length ps) (Adam.mt_ (derived o)) →
  shaped (length ps) (Adam.vt_ (derived o)) →
  Forall (λ ev,
      update {| opt := notify ev o; params := ps; grads := gs |} =
      update {| opt := Optimizer Adam.Adam (eta state) (clipper_ o)
                         [Adam.beta1_ (derived o); Adam.beta2_ (derived o);
                          Adam.eps_ (derived o); Adam.w_ (derived o)];
                params := ps; grads := gs |})
    (resetEvents state).
Proof.
  intros Hr Hm Hv.
  eapply Forall_impl; [apply (Adam_reset state o) |].
  intros ev ->. rewrite Hr.
  unfold Optimizer. rewrite Adam_setParams_nth.
  unfold update, updateImpl, Adam.algorithm, Adam.updateImpl, clipGrads. simpl.
  destruct (clipper_ o); simpl;
    by rewrite (allocated_setZero _ _ Hm), (allocated_setZero _ _ Hv).
Qed.

(** C7: once a notification with [state.reset] set has been delivered, the
    auxiliary buffers are zero (or still unallocated) and Adam's step
    counter is 0, and the next [update], on any parameters and gradients
    that the buffers fit, gives the same parameters, gradients and
    optimizer as the first [update] of an optimizer newly made by the
    factory with the same learning rate, clipper and hyper-parameters. *)
Theorem update_after_reset_is_first_update (state : TrainingState F) (ps gs : list F) :
  reset state = true →
  (∀ o : OptimizerBase F Sgd.Members,
     Forall (λ ev,
         update {| opt := notify ev o; params := ps; grads := gs |} =
         update {| opt := Optimizer Sgd.Sgd (eta state) (clipper_ o) [];
                   params := ps; grads := gs |})
       (resetEvents state))
  ∧ (∀ o : OptimizerBase F (Adagrad.Members F),
       shaped (length ps) (Adagrad.gt_ (derived o)) →
       Forall (λ ev,
           Adagrad.gt_ (derived (notify ev o)) = setZero (Adagrad.gt_ (derived o))
           ∧ update {| opt := notify ev o; params := ps; grads := gs |} =
             update {| opt := Optimizer Adagrad.Adagrad (eta state) (clipper_ o)
                                [Adagrad.eps_ (derived o)];
                       params := ps; grads := gs |})
         (resetEvents state))
  ∧ (∀ o : OptimizerBase F (Adam.Members F),
       shaped (length ps) (Adam.mt_ (derived o)) →
       shaped (length ps) (Adam.vt_ (derived o)) →
       Forall (λ ev,
           Adam.t_ (derived (notify ev o)) = 0%N
           ∧ Adam.mt_ (derived (notify ev o)) = setZero (Adam.mt_ (derived o))
           ∧ Adam.vt_ (derived (notify ev o)) = setZero (Adam.vt_ (derived o))
           ∧ update {| opt := notify ev o; params := ps; grads := gs |} =
             update {| opt := Optimizer Adam.Adam (eta state) (clipper_ o)
                                [Adam.beta1_ (derived o); Adam.beta2_ (derived o);
                                 Adam.eps_ (derived o); Adam.w_ (derived o)];
                       params := ps; grads := gs |})
         (resetEvents state)).
Proof.
  intros Hr. split_and!.
  - intros o. eapply Forall_impl; [apply (Sgd_reset state o) |].
    intros ev ->. by destruct o as [e c []].
  - intros o Hn.
    pose proof (Adagrad_reset state o) as Hz.
    pose proof (Adagrad_update_after_reset state o ps gs Hr Hn) as Hu.
    rewrite Hr in Hz. revert Hz Hu. rewrite !Forall_forall.
    intros Hz Hu ev Hev. split; [by rewrite (Hz ev Hev) | by apply Hu].
  - intros o Hm Hv.
    pose proof (Adam_reset state o) as Hz.
    pose proof (Adam_update_after_reset state o ps gs Hr Hm Hv) as Hu.
    rewrite Hr in Hz. revert Hz Hu. rewrite !Forall_forall.
    intros Hz Hu ev Hev. rewrite (Hz ev Hev). split_and!; [done.. |].
    rewrite <-(Hz ev Hev). by apply Hu.
Qed.
End ResetThenUpdate.

Section ScatterGather.
Context {F : Type} `{!Scalar F}.

Lemma scatterFrom_alter {O : Type} (f : list F → O → O)
    (sizes : list nat) (data : list F) (pre opts : list O) :
  length opts = length sizes →
  scatterFrom (length pre) sizes data (λ i range, alter (f range) i) (pre ++ opts)
  = pre ++ zip_with (λ o range, f range o) opts (slices sizes data).
Proof.
  revert data pre opts.
  induction sizes as [|n sizes IH]; intros data pre [|o opts] Hlen; simplify_eq/=.
  - done.
  - rewrite <-(Nat.add_0_r (length pre)) at 2.
    rewrite alter_app_r. simpl.
    rewrite (cons_middle (f _ o)), app_assoc.
    replace (S (length pre)) with (length (pre ++ [f (take n data) o]))
      by (rewrite length_app; simpl; lia).
    rewrite IH by done. by rewrite <-app_assoc.
Qed.

Lemma scatterShards_alter {O : Type} (f : list F → O → O)
    (sizes : list nat) (data : list F) (opts : list O) :
  length opts = length sizes →
  scatterShards sizes data (λ i range, alter (f range) i) opts
  = zip_with (λ o range, f range o) opts (slices sizes data).
Proof. intros Hlen. apply (scatterFrom_alter f sizes data [] opts Hlen). Qed.

Lemma length_slices (sizes : list nat) (data : list F) :
  length (slices sizes data) = length sizes.
Proof. revert data. induction sizes; intros; simpl; auto. Qed.

Lemma slices_full (sizes : list nat) (data : list F) :
  length data = sum_list sizes →
  Forall2 (λ range n, length range = n) (slices sizes data) sizes.
Proof.
  revert data. induction sizes as [|n sizes IH]; intros data Hlen; simpl in *.
  - constructor.
  - constructor.
    + rewrite length_take. lia.
    + apply IH. rewrite length_drop. lia.
Qed.

Lemma concat_slices (sizes : list nat) (data : list F) :
  length data = sum_list sizes →
  concat (slices sizes data) = data.
Proof.
  revert data. induction sizes as [|n sizes IH]; intros data Hlen; simpl in *.
  - by destruct data.
  - rewrite IH by (rewrite length_drop; lia). apply take_drop.
Qed.

Lemma slices_concat (bufs : list (list F)) :
  slices (length <$> bufs) (concat bufs) = bufs.
Proof.
  induction bufs as [|b bufs IH]; simpl; [done |].
  f_equal; [apply take_app_length |].
  rewrite drop_app_length. exact IH.
Qed.

Lemma gatherShards_all {O : Type} (get : O → list F) (opts : list O) :
  gatherShards (length opts)
    (λ i, match opts !! i with Some o => get o | None => [] end)
  = concat (get <$> opts).
Proof.
  unfold gatherShards. f_equal. apply list_eq. intros i.
  rewrite !list_lookup_fmap.
  destruct (decide (i < length opts)) as [Hi|Hi].
  - rewrite lookup_seq_lt by done. simpl.
    destruct (lookup_lt_is_Some_2 opts i Hi) as [o Ho]. by rewrite Ho.
  - rewrite lookup_seq_ge by lia. by rewrite lookup_ge_None_2 by lia.
Qed.

Lemma fmap_zip_with_left {X Y Z W : Type} (f : X → Y → Z) (g : Z → W) (h : X → W)
    (l : list X) (k : list Y) :
  (∀ x y, g (f x y) = h x) → length l = length k →
  g <$> zip_with f l k = h <$> l.
Proof.
  intros Hg. revert k. induction l as [|x l IH]; intros [|y k] Hlen; simplify_eq/=; [done |].
  f_equal; [apply Hg | by apply IH].
Qed.

Lemma fmap_zip_with_right {X Y Z W : Type} (f : X → Y → Z) (g : Z → W) (h : Y → W)
    (l : list X) (k : list Y) :
  (∀ x y, g (f x y) = h y) → length l = length k →
  g <$> zip_with f l k = h <$> k.
Proof.
  intros Hg. revert k. induction l as [|x l IH]; intros [|y k] Hlen; simplify_eq/=; [done |].
  f_equal; [apply Hg | by apply IH].
Qed.

Lemma fmap_default_Some (g : list (option (list F))) (bufs : list (list F)) :
  g = Some <$> bufs → default [] <$> g = bufs.
Proof.
  intros ->. rewrite <-list_fmap_compose. apply list_fmap_id.
Qed.

Lemma Adagrad_save_writes (name : string) (opts : list (OptimizerBase F (Adagrad.Members F)))
    (bufs : list (list F)) (storage : gmap string (Checkpoint F)) :
  Adagrad.aux <$> opts = Some <$> bufs →
  Adagrad.save name opts (gatherShards (length opts)) true storage
  = <[name := CkAdagrad (concat bufs)]> storage.
Proof.
  intros Haux. unfold Adagrad.save.
  change (Adagrad.getGt opts) with
    (λ i, match opts !! i with Some o => default [] (Adagrad.aux o) | None => [] end).
  rewrite (gatherShards_all (λ o, default [] (Adagrad.aux o))).
  rewrite <-(fmap_default_Some _ bufs Haux).
  by rewrite <-list_fmap_compose.
Qed.

Lemma Adagrad_load_reads (name : string) (opts : list (OptimizerBase F (Adagrad.Members F)))
    (backends : list Backend) (vGt : list F) (storage : gmap string (Checkpoint F)) :
  storage !! name = Some (CkAdagrad vGt) →
  length vGt = sum_list (shardSize <$> backends) →
  length opts = length backends →
  ∃ loaded,
    Adagrad.load name opts backends (scatterShards (shardSize <$> backends)) storage
    = (Loaded, loaded)
    ∧ Adagrad.aux <$> loaded = Some <$> slices (shardSize <$> backends) vGt
    ∧ (eta_ <$> loaded = eta_ <$> opts).
Proof.
  intros Hname Hsize Hlen. unfold Adagrad.load. rewrite Hname.
  rewrite bool_decide_eq_true_2 by done.
  eexists. split; [done |].
  unfold Adagrad.setGt.
  rewrite (scatterShards_alter (λ range, Adagrad.withGt (Some range)))
    by (by rewrite length_fmap).
  split.
  - apply fmap_zip_with_right; [done |]. by rewrite length_slices, length_fmap.
  - apply fmap_zip_with_left; [done |]. by rewrite length_slices, length_fmap.
Qed.

Lemma Adam_save_writes (name : string) (opts : list (OptimizerBase F (Adam.Members F)))
    (mts vts : list (list F)) (storage : gmap string (Checkpoint F)) :
  (λ o, Adam.mt_ (derived o)) <$> opts = Some <$> mts →
  (λ o, Adam.vt_ (derived o)) <$> opts = Some <$> vts →
  Adam.save name opts (gatherShards (length opts)) true storage
  = <[name := CkAdam (concat mts) (concat vts) (Adam.sharedT opts)]> storage.
Proof.
  intros Hmt Hvt. unfold Adam.save.
  change (Adam.getMt opts) with
    (λ i, match opts !! i with Some o => default [] (Adam.mt_ (derived o)) | None => [] end).
  change (Adam.getVt opts) with
    (λ i, match opts !! i with Some o => default [] (Adam.vt_ (derived o)) | None => [] end).
  rewrite (gatherShards_all (λ o, default [] (Adam.mt_ (derived o)))).
  rewrite (gatherShards_all (λ o, default [] (Adam.vt_ (derived o)))).
  rewrite <-(fmap_default_Some _ mts Hmt), <-(fmap_default_Some _ vts Hvt).
  by rewrite <-!list_fmap_compose.
Qed.

Lemma Adam_load_reads (name : string) (opts : list (OptimizerBase F (Adam.Members F)))
    (backends : list Backend) (vMt vVt : list F) (t : N)
    (storage : gmap string (Checkpoint F)) :
  storage !! name = Some (CkAdam vMt vVt t) →
  length vMt = sum_list (shardSize <$> backends) →
  length vVt = sum_list (shardSize <$> backends) →
  length opts = length backends →
  ∃ loaded,
    Adam.load name opts backends (scatterShards (shardSize <$> backends)) storage
    = (Loaded, loaded)
    ∧ (λ o, Adam.mt_ (derived o)) <$> loaded = Some <$> slices (shardSize <$> backends) vMt
    ∧ (λ o, Adam.vt_ (derived o)) <$> loaded = Some <$> slices (shardSize <$> backends) vVt
    ∧ (λ o, Adam.t_ (derived o)) <$> loaded = replicate (length backends) t.
Proof.
  intros Hname Hm Hv Hlen. unfold Adam.load. rewrite Hname.
  rewrite bool_decide_eq_true_2 by done.
  eexists. split; [done |].
  unfold Adam.setMt, Adam.setVt.
  rewrite (scatterShards_alter
             (λ range o, Adam.withMembers
                (Adam.withStats (Adam.t_ (derived o)) (Some range) (Adam.vt_ (derived o))
                   (derived o)) o))
    by (by rewrite length_fmap).
  rewrite (scatterShards_alter
             (λ range o, Adam.withMembers
                (Adam.withStats (Adam.t_ (derived o)) (Adam.mt_ (derived o)) (Some range)
                   (derived o)) o))
    by (by rewrite length_zip_with, length_slices, length_fmap, Hlen, Nat.min_id).
  rewrite <-!list_fmap_compose.
  split_and!.
  - rewrite (fmap_zip_with_left _ _ (λ o, Adam.mt_ (derived o)));
      [| done | by rewrite length_zip_with, !length_slices, length_fmap, Hlen, Nat.min_id].
    apply fmap_zip_with_right; [done |]. by rewrite length_slices, length_fmap.
  - apply fmap_zip_with_right; [done |].
    by rewrite length_zip_with, !length_slices, length_fmap, Hlen, Nat.min_id.
  - rewrite (const_fmap _ _ t) by done.
    by rewrite length_zip_with, length_zip_with, !length_slices, length_fmap, Hlen, !Nat.min_id.
Qed.

Lemma Adam_aux_ext (l1 l2 : list (OptimizerBase F (Adam.Members F))) :
  (λ o, Adam.mt_ (derived o)) <$> l1 = (λ o, Adam.mt_ (derived o)) <$> l2 →
  (λ o, Adam.vt_ (derived o)) <$> l1 = (λ o, Adam.vt_ (derived o)) <$> l2 →
  (λ o, Adam.t_ (derived o)) <$> l1 = (λ o, Adam.t_ (derived o)) <$> l2 →
  Adam.aux <$> l1 = Adam.aux <$> l2.
Proof.
  revert l2. induction l1 as [|o1 l1 IH]; intros [|o2 l2] Hm Hv Ht; simplify_eq/=; [done |].
  f_equal; [| by apply IH]. unfold Adam.aux. congruence.
Qed.

(** C4: saving the auxiliary state of the shards under a name (as main
    process) and loading it into newly constructed optimizers of the same
    algorithm succeeds and gives every shard its sub-range of the saved
    flat state, for every partition of the same total length into shards;
    when the shards have the lengths they had on saving, every shard gets
    back exactly the auxiliary state it had: [gt] for Adagrad; [mt], [vt]
    and the shared step counter [t] for Adam. *)
Theorem save_load_round_trip (name : string) (storage : gmap string (Checkpoint F))
    (eta : F) (clipper : option (ClipperBase F)) (backends : list Backend) :
  let sizes := shardSize <$> backends in
  (∀ (opts : list (OptimizerBase F (Adagrad.Members F))) (gts : list (list F)),
     Adagrad.aux <$> opts = Some <$> gts →
     length (concat gts) = sum_list sizes →
     ∃ loaded,
       Adagrad.load name ((λ _, Adagrad.Adagrad eta clipper) <$> backends) backends
         (scatterShards sizes)
         (Adagrad.save name opts (gatherShards (length opts)) true storage)
       = (Loaded, loaded)
       ∧ Adagrad.aux <$> loaded = Some <$> slices sizes (concat gts)
       ∧ concat (slices sizes (concat gts)) = concat gts
       ∧ (sizes = length <$> gts → Adagrad.aux <$> loaded = Adagrad.aux <$> opts))
  ∧ (∀ (opts : list (OptimizerBase F (Adam.Members F))) (mts vts : list (list F)),
       (λ o, Adam.mt_ (derived o)) <$> opts = Some <$> mts →
       (λ o, Adam.vt_ (derived o)) <$> opts = Some <$> vts →
       Forall (λ o, Adam.t_ (derived o) = Adam.sharedT opts) opts →
       length (concat mts) = sum_list sizes →
       length (concat vts) = sum_list sizes →
       ∃ loaded,
         Adam.load name ((λ _, Adam.Adam eta clipper) <$> backends) backends
           (scatterShards sizes)
           (Adam.save name opts (gatherShards (length opts)) true storage)
         = (Loaded, loaded)
         ∧ (λ o, Adam.mt_ (derived o)) <$> loaded = Some <$> slices sizes (concat mts)
         ∧ (λ o, Adam.vt_ (derived o)) <$> loaded = Some <$> slices sizes (concat vts)
         ∧ (λ o, Adam.t_ (derived o)) <$> loaded
           = replicate (length backends) (Adam.sharedT opts)
         ∧ concat (slices sizes (concat mts)) = concat mts
         ∧ concat (slices sizes (concat vts)) = concat vts
         ∧ (sizes = length <$> mts → sizes = length <$> vts →
            Adam.aux <$> loaded = Adam.aux <$> opts)).
Proof.
  intros sizes. split.
  - intros opts gts Haux Htotal.
    rewrite (Adagrad_save_writes name opts gts storage Haux).
    destruct (Adagrad_load_reads name ((λ _, Adagrad.Adagrad eta clipper) <$> backends)
                backends (concat gts) (<[name := CkAdagrad (concat gts)]> storage))
      as (loaded & Hload & Hgt & _);
      [apply lookup_insert_eq | done | by rewrite length_fmap |].
    exists loaded. split_and!; [done | done | by apply concat_slices |].
    intros Hsame. rewrite Hgt, Haux. unfold sizes in *. by rewrite Hsame, slices_concat.
  - intros opts mts vts Hmt Hvt Ht Hm Hv.
    rewrite (Adam_save_writes name opts mts vts storage Hmt Hvt).
    destruct (Adam_load_reads name ((λ _, Adam.Adam eta clipper) <$> backends)
                backends (concat mts) (concat vts) (Adam.sharedT opts)
                (<[name := CkAdam (concat mts) (concat vts) (Adam.sharedT opts)]> storage))
      as (loaded & Hload & Hlm & Hlv & Hlt);
      [apply lookup_insert_eq | done | done | by rewrite length_fmap |].
    exists loaded.
    split_and!; [done | done | done | done | by apply concat_slices | by apply concat_slices |].
    intros Hsm Hsv. apply Adam_aux_ext.
    + rewrite Hlm, Hmt. unfold sizes in *. by rewrite Hsm, slices_concat.
    + rewrite Hlv, Hvt. unfold sizes in *. by rewrite Hsv, slices_concat.
    + rewrite Hlt. rewrite (const_fmap _ opts (Adam.sharedT opts)).
      * f_equal. unfold sizes in Hsm.
        apply (f_equal length) in Hmt, Hsm. rewrite !length_fmap in Hmt.
        rewrite !length_fmap in Hsm. lia.
      * intros i o Ho. by apply (Forall_lookup_1 _ _ _ _ Ht Ho).
Qed.
End ScatterGather.

(** * Further properties of the code in the header *)

(** ** Composition of [setParams] calls *)

Section ParseComposition.
Context {F : Type} `{!Scalar F}.

Lemma nth_override (i : nat) (ps2 ps1 : list F) (d : F) :
  nth i ps2 (nth i ps1 d) = nth i (ps2 ++ drop (length ps2) ps1) d.
Proof.
  revert i ps1. induction ps2 as [|x ps2 IH]; intros i ps1.
  - simpl. by destruct i.
  - destruct i as [|i]; [done |]. simpl.
    destruct ps1 as [|y ps1]; simpl.
    + by rewrite ?drop_nil, app_nil_r.
    + apply IH.
Qed.

Lemma nth_twice (i : nat) (ps : list F) (d : F) :
  nth i ps (nth i ps d) = nth i ps d.
Proof.
  revert i. induction ps as [|x ps IH]; intros [|i]; simpl; auto.
Qed.

(** X1: a second [setParams] overrides the positions its list has and
    keeps what the first call set beyond them: two calls are one call with
    the second list followed by the rest of the first. *)
Theorem setParams_twice_overrides_prefix (ps1 ps2 : list F) :
  (∀ o : OptimizerBase F (Adam.Members F),
     setParams ps2 (setParams ps1 o) = setParams (ps2 ++ drop (length ps2) ps1) o)
  ∧ (∀ o : OptimizerBase F (Adagrad.Members F),
       setParams ps2 (setParams ps1 o) = setParams (ps2 ++ drop (length ps2) ps1) o).
Proof.
  split; intros o.
  - rewrite !Adam_setParams_nth. simpl. by rewrite !nth_override.
  - rewrite !Adagrad_setParams_nth. simpl. by rewrite !nth_override.
Qed.

(** X2: [setParams] is idempotent, and with an empty list it changes
    nothing, on each of the three optimizers. *)
Theorem setParams_idempotent_and_empty (ps : list F) :
  (∀ o : OptimizerBase F (Adam.Members F),
     setParams ps (setParams ps o) = setParams ps o ∧ setParams [] o = o)
  ∧ (∀ o : OptimizerBase F (Adagrad.Members F),
       setParams ps (setParams ps o) = setParams ps o ∧ setParams [] o = o)
  ∧ (∀ o : OptimizerBase F Sgd.Members,
       setParams ps (setParams ps o) = setParams ps o ∧ setParams [] o = o).
Proof.
  split_and!; intros o.
  - split.
    + rewrite !Adam_setParams_nth. simpl. by rewrite !nth_twice.
    + rewrite Adam_setParams_nth. by destruct o as [e c []].
  - split.
    + rewrite !Adagrad_setParams_nth. simpl. by rewrite !nth_twice.
    + rewrite Adagrad_setParams_nth. by destruct o as [e c []].
  - by split.
Qed.

(** X3: hyper-parameters can be read back: after [setParams] with at
    least four values Adam's hyper-parameters are the first four values
    (Adagrad: at least one value, the first), and handing an optimizer its
    own hyper-parameters changes nothing. *)
Theorem setParams_read_back (ps : list F) :
  (∀ o : OptimizerBase F (Adam.Members F),
     (4 ≤ length ps → AdamHyperParams (setParams ps o) = take 4 ps)
     ∧ setParams (AdamHyperParams o) o = o)
  ∧ (∀ o : OptimizerBase F (Adagrad.Members F),
       (1 ≤ length ps → AdagradHyperParams (setParams ps o) = take 1 ps)
       ∧ setParams (AdagradHyperParams o) o = o).
Proof.
  split; intros o; split.
  - intros Hlen. rewrite Adam_setParams_nth.
    destruct ps as [|x0 [|x1 [|x2 [|x3 ps]]]]; simpl in Hlen; try lia. done.
  - rewrite Adam_setParams_nth. by destruct o as [e c []].
  - intros Hlen. rewrite Adagrad_setParams_nth.
    destruct ps as [|x0 ps]; simpl in Hlen; try lia. done.
  - rewrite Adagrad_setParams_nth. by destruct o as [e c []].
Qed.

(** X4: the factory rebuilds the configuration of an optimizer from its
    learning rate, clipper and hyper-parameters: the result differs from
    the optimizer only in the auxiliary state, which is new (no buffers,
    step counter 0). *)
Theorem Optimizer_rebuilds_configuration :
  (∀ o : OptimizerBase F (Adam.Members F),
     Optimizer Adam.Adam (eta_ o) (clipper_ o) (AdamHyperParams o)
     = Adam.withMembers (Adam.withStats 0%N None None (derived o)) o)
  ∧ (∀ o : OptimizerBase F (Adagrad.Members F),
       Optimizer Adagrad.Adagrad (eta_ o) (clipper_ o) (AdagradHyperParams o)
       = Adagrad.withGt None o)
  ∧ (∀ (o : OptimizerBase F Sgd.Members) (ps : list F),
       Optimizer Sgd.Sgd (eta_ o) (clipper_ o) ps = o).
Proof.
  split_and!.
  - intros o. unfold Optimizer. by rewrite Adam_setParams_nth.
  - intros o. unfold Optimizer. by rewrite Adagrad_setParams_nth.
  - intros [e c []] ps. reflexivity.
Qed.

(** X5: [init] and [actAfterLoaded] commute with [setParams] on each of
    the three optimizers: the learning rate and the hyper-parameters are
    set independently of each other. *)
Theorem plain_notifications_commute_with_setParams
    (state : TrainingState F) (ps : list F) :
  (∀ o : OptimizerBase F (Adam.Members F),
     Forall (λ ev, notify ev (setParams ps o) = setParams ps (notify ev o))
            (plainEvents state))
  ∧ (∀ o : OptimizerBase F (Adagrad.Members F),
       Forall (λ ev, notify ev (setParams ps o) = setParams ps (notify ev o))
              (plainEvents state))
  ∧ (∀ o : OptimizerBase F Sgd.Members,
       Forall (λ ev, notify ev (setParams ps o) = setParams ps (notify ev o))
              (plainEvents state)).
Proof.
  split_and!; intros o; unfold plainEvents;
    rewrite !Forall_cons, Forall_nil; split_and!; try done; cbn [notify];
    unfold init, actAfterLoaded, adoptEta;
    rewrite ?Adam_setParams_nth, ?Adagrad_setParams_nth; reflexivity.
Qed.
End ParseComposition.

(** ** Sequences of notifications *)

Section NotificationSequences.
Context {F A : Type} `{!Algorithm F A}.

Lemma notify_without_reset (ev : Event F) (o : OptimizerBase F A) :
  reset (stateOf ev) = false → notify ev o = adoptEta (stateOf ev) o.
Proof.
  destruct ev as [s|s|s|s|s]; simpl; intros Hr; try done;
    unfold actAfterEpoch, actAfterBatches, actAfterStalled; by rewrite Hr.
Qed.

Lemma notifyAll_snoc (evs : list (Event F)) (ev : Event F) (o : OptimizerBase F A) :
  notifyAll (evs ++ [ev]) o = notify ev (notifyAll evs o).
Proof. unfold notifyAll. by rewrite foldl_app. Qed.

(** X6: as long as no notification asks for a reset, a training run
    changes nothing of an optimizer but its learning rate, which is the one
    of the last notification; this holds for every algorithm. *)
Theorem notifications_without_reset_only_set_eta
    (evs : list (Event F)) (o : OptimizerBase F A) :
  Forall (λ ev, reset (stateOf ev) = false) evs →
  notifyAll evs o =
    match last evs with
    | Some ev => {| eta_ := eta (stateOf ev); clipper_ := clipper_ o; derived := derived o |}
    | None => o
    end.
Proof.
  induction evs as [|ev evs IH] using rev_ind; intros Hr; [done |].
  apply Forall_app in Hr as [Hevs Hev]. apply Forall_inv in Hev.
  rewrite notifyAll_snoc, last_snoc, (IH Hevs), (notify_without_reset _ _ Hev).
  by destruct (last evs).
Qed.

Lemma notify_after_plain (state : TrainingState F) (ev : Event F) (o : OptimizerBase F A) :
  notify ev (init state o) = notify ev o
  ∧ notify ev (actAfterLoaded state o) = notify ev o.
Proof. by destruct ev. Qed.

(** X8: an [init] or [actAfterLoaded] that is directly followed by another
    notification has no effect on the outcome of a training run, for every
    algorithm: its learning rate is overwritten and it changed nothing
    else. *)
Theorem plain_notification_before_another_is_void
    (state : TrainingState F) (evs1 evs2 : list (Event F)) (ev : Event F)
    (o : OptimizerBase F A) :
  Forall (λ plain, notifyAll (evs1 ++ plain :: ev :: evs2) o
                   = notifyAll (evs1 ++ ev :: evs2) o)
         (plainEvents state).
Proof.
  unfold plainEvents. rewrite !Forall_cons, Forall_nil. split_and!; [| | done].
  - unfold notifyAll. rewrite !foldl_app. simpl.
    by rewrite (proj1 (notify_after_plain state ev _)).
  - unfold notifyAll. rewrite !foldl_app. simpl.
    by rewrite (proj2 (notify_after_plain state ev _)).
Qed.

(** X9: when the configured clipper is idempotent on the gradient, handing
    [update] a gradient buffer that was already clipped gives the same
    result as handing it the raw one, for every algorithm. *)
Theorem update_on_clipped_gradients (m : Machine F A) (c : ClipperBase F) :
  clipper_ (opt m) = Some c →
  clip c (clip c (grads m)) = clip c (grads m) →
  update (clipGrads c m) = update m.
Proof.
  intros Hc Hidem. unfold update. simpl. rewrite Hc.
  unfold clipGrads. simpl. by rewrite Hidem.
Qed.
End NotificationSequences.

Section SgdNotifications.
Context {F : Type} `{!Scalar F}.

(** X7: plain gradient descent has nothing to reset: after any sequence
    of notifications, with or without [reset], an Sgd optimizer differs
    from the original only in its learning rate, which is the one of the
    last notification. *)
Theorem Sgd_notifications_only_set_eta
    (evs : list (Event F)) (o : OptimizerBase F Sgd.Members) :
  notifyAll evs o =
    match last evs with
    | Some ev => {| eta_ := eta (stateOf ev); clipper_ := clipper_ o; derived := derived o |}
    | None => o
    end.
Proof.
  induction evs as [|ev evs IH] using rev_ind; [done |].
  rewrite notifyAll_snoc, last_snoc, IH.
  assert (∀ o' : OptimizerBase F Sgd.Members, notify ev o' = adoptEta (stateOf ev) o') as ->.
  { intros o'. destruct ev as [s|s|s|s|s]; simpl; try done;
      unfold actAfterEpoch, actAfterBatches, actAfterStalled; by destruct (reset s). }
  by destruct (last evs).
Qed.
End SgdNotifications.

(** ** Concrete runs *)

Section Witnesses.
Local Open Scope R_scope.


Lemma Adam_first_step_bias_correction_witness :
  (clippedGrads {| opt := Adam.Adam (fdec 1 3) None; params := [1; 2]; grads := [3; 3] |}
   = replicate 2 3
   ∧ Adam.t_ (derived (opt (update {| opt := Adam.Adam (fdec 1 3) None;
                                      params := [1; 2]; grads := [3; 3] |}))) = 1%N
   ∧ ∃ mt vt,
       Adam.mt_ (derived (opt (update {| opt := Adam.Adam (fdec 1 3) None;
                                         params := [1; 2]; grads := [3; 3] |}))) = Some mt
       ∧ Adam.vt_ (derived (opt (update {| opt := Adam.Adam (fdec 1 3) None;
                                           params := [1; 2]; grads := [3; 3] |}))) = Some vt
       ∧ Adam.mHat (derived (opt (update {| opt := Adam.Adam (fdec 1 3) None;
                                            params := [1; 2]; grads := [3; 3] |}))) <$> mt
         = replicate 2 3
       ∧ Adam.vHat (derived (opt (update {| opt := Adam.Adam (fdec 1 3) None;
                                            params := [1; 2]; grads := [3; 3] |}))) <$> vt
         = replicate 2 (3 * 3))
  ∧ Adam.t_ (derived (opt (update
       {| opt := Adam.Adam (fdec 1 3) None; params := [fone];
          grads := [fdec 100 0 : Binary32.float32] |}))) = 1%N.
Proof.
  destruct Adam_first_step_bias_correction as [Hcode Hexact].
  split.
  - split; [reflexivity |].
    apply (Hexact (fdec 1 3) None [1; 2] [3; 3] 3). reflexivity.
  - apply (Hcode Binary32.float32 Binary32.scalar (fdec 1 3) None [fone] [fdec 100 0]
             (fdec 100 0) eq_refl).
Defined.

Lemma update_after_reset_is_first_update_witness :
  let state := {| eta := fdec 5 2; reset := true |} in
  let o := {| eta_ := fdec 1 1; clipper_ := None;
              derived := {| Adam.beta1_ := fdec 9 1; Adam.beta2_ := fdec 99 2;
                            Adam.eps_ := fdec 1 6; Adam.w_ := 0; Adam.t_ := 7%N;
                            Adam.mt_ := Some [4; 5]; Adam.vt_ := Some [6; 7] |} |} in
  reset state = true
  ∧ update {| opt := actAfterEpoch state o; params := [1; 2]; grads := [3; 4] |} =
    update {| opt := Optimizer Adam.Adam (fdec 5 2) None
                       [fdec 9 1; fdec 99 2; fdec 1 6; 0];
              params := [1; 2]; grads := [3; 4] |}.
Proof.
  intros state o. split; [reflexivity |].
  destruct (update_after_reset_is_first_update state [1; 2] [3; 4] eq_refl)
    as (_ & _ & HAdam).
  assert (shaped 2 (Some [4; 5])) as Hm by (intros b [= <-]; reflexivity).
  assert (shaped 2 (Some [6; 7])) as Hv by (intros b [= <-]; reflexivity).
  pose proof (Forall_inv (HAdam o Hm Hv)) as (_ & _ & _ & Hu).
  exact Hu.
Defined.

Lemma save_load_round_trip_witness :
  let shard (t : N) (mt vt : list R) : OptimizerBase R (Adam.Members R) :=
    {| eta_ := fdec 1 3; clipper_ := None;
       derived := {| Adam.beta1_ := fdec 9 1; Adam.beta2_ := fdec 999 3;
                     Adam.eps_ := fdec 1 8; Adam.w_ := 0; Adam.t_ := t;
                     Adam.mt_ := Some mt; Adam.vt_ := Some vt |} |} in
  let opts := [shard 7%N [1; 2; 3; 4] [11; 12; 13; 14];
               shard 7%N [5; 6; 7; 8] [15; 16; 17; 18]] in
  let backends := [{| shardSize := 3 |}; {| shardSize := 5 |}] in
  ∃ loaded,
    Adam.load "adam.npz" ((λ _, Adam.Adam (fdec 1 3) None) <$> backends) backends
      (scatterShards [3; 5]%nat)
      (Adam.save "adam.npz" opts (gatherShards 2) true ∅)
    = (Loaded, loaded)
    ∧ (λ o, Adam.mt_ (derived o)) <$> loaded = [Some [1; 2; 3]; Some [4; 5; 6; 7; 8]]
    ∧ (λ o, Adam.vt_ (derived o)) <$> loaded
      = [Some [11; 12; 13]; Some [14; 15; 16; 17; 18]]
    ∧ (λ o, Adam.t_ (derived o)) <$> loaded = [7%N; 7%N].
Proof.
  intros shard opts backends.
  destruct (save_load_round_trip (F:=R) "adam.npz" ∅ (fdec 1 3) None backends) as [_ HAdam].
  destruct (HAdam opts [[1; 2; 3; 4]; [5; 6; 7; 8]] [[11; 12; 13; 14]; [15; 16; 17; 18]])
    as (loaded & Hload & Hm & Hv & Ht & _);
    [reflexivity | reflexivity | repeat constructor | reflexivity | reflexivity |].
  exists loaded. split_and!; [exact Hload | exact Hm | exact Hv | exact Ht].
Defined.

Lemma setParams_read_back_witness :
  4 ≤ length [1; 2; 3; 4; 5]
  ∧ AdamHyperParams (setParams [1; 2; 3; 4; 5] (Adam.Adam (fdec 1 3) None)) = [1; 2; 3; 4]
  ∧ AdagradHyperParams (setParams [1; 2] (Adagrad.Adagrad (fdec 1 3) None)) = [1].
Proof.
  split; [simpl; lia |]. split.
  - apply (proj1 (proj1 (setParams_read_back [1; 2; 3; 4; 5]) (Adam.Adam (fdec 1 3) None))).
    simpl; lia.
  - apply (proj1 (proj2 (setParams_read_back [1; 2]) (Adagrad.Adagrad (fdec 1 3) None))).
    simpl; lia.
Defined.

Lemma notifications_without_reset_only_set_eta_witness :
  let evs := [EvInit {| eta := 1; reset := false |};
              EvEpoch {| eta := 2; reset := false |};
              EvStalled {| eta := 3; reset := false |}] in
  Forall (λ ev, reset (stateOf ev) = false) evs
  ∧ notifyAll evs (Adam.Adam (fdec 1 3) None)
    = {| eta_ := 3; clipper_ := None; derived := derived (Adam.Adam (fdec 1 3) None) |}.
Proof.
  intros evs. split; [repeat constructor |].
  apply (notifications_without_reset_only_set_eta evs (Adam.Adam (fdec 1 3) None)).
  repeat constructor.
Defined.

Lemma update_on_clipped_gradients_witness :
  let c := {| clip := λ gs : list R, replicate (length gs) 0 |} in
  let m := {| opt := Sgd.Sgd (fdec 1 1) (Some c); params := [1; 2]; grads := [3; 4] |} in
  clipper_ (opt m) = Some c
  ∧ clip c (clip c (grads m)) = clip c (grads m)
  ∧ update (clipGrads c m) = update m.
Proof.
  intros c m. split; [reflexivity |]. split; [reflexivity |].
  apply (update_on_clipped_gradients m c); reflexivity.
Defined.
End Witnesses.
